(** * The Cursed Forest: the game-state engine of [game.py]

    A shallow embedding of the part of [game.py] that owns the game state:
    [initialize_session_state], [update_game_state] and the control flow of
    [main] that decides when [update_game_state] runs.

    - Python integers are [Z]; the fields of the [game_state] dict are the
      fields of a record with the same names.
    - [mode] holds [None] or one of the three strings the mode buttons store.
    - [random.choices] and [random.random] are read from a record of draws
      supplied by the caller; the uniform draw is a binary64 float compared
      with [<], exactly as in the source.
    - [st.info] appends to a list of notices.
    - The statements of [update_game_state] are sequenced in a small
      state-and-output monad, block by block as the source comments name
      them. *)

From Stdlib Require Import ZArith String Ascii List Bool Lia Floats.
Import ListNotations.

#[local] Open Scope Z_scope.
#[local] Set Warnings "-inexact-float".

(** ** Text: [str.lower] and the [in] operator *)

Module Text.

(** [str.lower], on a string held as its UTF-8 bytes: the letters [A-Z] are
    lowered, every other byte is kept.  Python lowers letters outside ASCII
    too; what they become is outside ASCII again, except for U+212A (which
    becomes [k]) and U+0130 (which becomes [i] and U+0307), and neither [k]
    nor [i] occurs in a phrase the game looks for. *)
Definition lower_ascii (c : ascii) : ascii :=
  let n := nat_of_ascii c in
  if (Nat.leb 65 n && Nat.leb n 90)%bool then ascii_of_nat (n + 32) else c.

Fixpoint lower (s : string) : string :=
  match s with
  | EmptyString => EmptyString
  | String c rest => String (lower_ascii c) (lower rest)
  end.

(** [needle in hay]: [needle] starts at some position of [hay]. *)
Fixpoint str_in (needle hay : string) : bool :=
  match hay with
  | EmptyString => String.prefix needle EmptyString
  | String _ rest => (String.prefix needle hay || str_in needle rest)%bool
  end.

(** ["phrase" in response_text.lower()] *)
Definition mentions (phrase response_text : string) : bool :=
  str_in phrase (lower response_text).

End Text.

(** ** The game state *)

Inductive mode_name : Type := Easy | Hard | Nightmare.

Definition mode_eqb (m : option mode_name) (name : mode_name) : bool :=
  match m, name with
  | Some Easy, Easy | Some Hard, Hard | Some Nightmare, Nightmare => true
  | _, _ => false
  end.

(** The dict stored under ["game_state"] in the session. *)
Record game_state : Type := mk_game_state
  { health : Z
  ; food : Z
  ; choices_made : Z
  ; success : bool
  ; mode : option mode_name
  ; ended : bool }.

(** The dict literal of [initialize_session_state]. *)
Definition initial_game_state : game_state :=
  {| health := 100
   ; food := 5
   ; choices_made := 0
   ; success := false
   ; mode := None
   ; ended := false |}.

(** Item assignment [game_state[key] = v], one function per key. *)
Definition set_health (v : Z) (g : game_state) : game_state :=
  mk_game_state v (food g) (choices_made g) (success g) (mode g) (ended g).
Definition set_food (v : Z) (g : game_state) : game_state :=
  mk_game_state (health g) v (choices_made g) (success g) (mode g) (ended g).
Definition set_choices_made (v : Z) (g : game_state) : game_state :=
  mk_game_state (health g) (food g) v (success g) (mode g) (ended g).
Definition set_success (v : bool) (g : game_state) : game_state :=
  mk_game_state (health g) (food g) (choices_made g) v (mode g) (ended g).
Definition set_mode (v : option mode_name) (g : game_state) : game_state :=
  mk_game_state (health g) (food g) (choices_made g) (success g) v (ended g).
Definition set_ended (v : bool) (g : game_state) : game_state :=
  mk_game_state (health g) (food g) (choices_made g) (success g) (mode g) v.

(** ** Randomness and output *)

Inductive outcome : Type := good | bad.

(** What the random source hands out during one call: the element
    [random.choices (['good', 'bad'], weights)] selects and the float
    [random.random ()] returns. *)
Record draws : Type := mk_draws
  { pick : outcome
  ; roll : float }.

(** The two [st.info] messages. *)
Inductive notice : Type :=
| consumed_food_restored (points : Z)
| found_food_supplies.

(** ** A state-and-output monad for the statements of the script *)

Definition script (A : Type) : Type := game_state -> A * game_state * list notice.

Definition ret {A : Type} (a : A) : script A := fun g => (a, g, []).

Definition bind {A B : Type} (m : script A) (k : A -> script B) : script B :=
  fun g =>
    let '(a, g1, out1) := m g in
    let '(b, g2, out2) := k a g1 in
    (b, g2, (out1 ++ out2)%list).

Definition read {A : Type} (field : game_state -> A) : script A :=
  fun g => (field g, g, []).

Definition assign (update : game_state -> game_state) : script unit :=
  fun g => (tt, update g, []).

Definition st_info (n : notice) : script unit := fun g => (tt, g, [n]).

Definition pass : script unit := ret tt.

Definition when (c : bool) (body : script unit) : script unit :=
  if c then body else pass.

(** The state and the notices a script leaves behind. *)
Definition exec {A : Type} (m : script A) (g : game_state) : game_state :=
  snd (fst (m g)).
Definition shown {A : Type} (m : script A) (g : game_state) : list notice :=
  snd (m g).

Declare Scope script_scope.
Delimit Scope script_scope with script.
Notation "x <- m ;; k" := (bind m (fun x => k))
  (at level 61, m at next level, right associativity) : script_scope.
Notation "m ;; k" := (bind m (fun _ => k))
  (at level 61, right associativity) : script_scope.
#[local] Open Scope script_scope.

(** ** [update_game_state], block by block *)

Import Text.

(** Lines 107-110: food heals 10 points, except in Nightmare mode. *)
Definition food_restore_health (m : option mode_name) : Z :=
  if mode_eqb m Nightmare then 0 else 10.

(** Lines 112-121, "Consume food with each choice". *)
Definition consume_food : script unit :=
  m <- read mode ;;
  let restore := food_restore_health m in
  f <- read food ;;
  if 0 <? f then
    assign (set_food (f - 1)) ;;
    h <- read health ;;
    let new_health := Z.min 100 (h + restore) in
    when (h <? new_health)
      (assign (set_health new_health) ;;
       when (0 <? restore) (st_info (consumed_food_restored restore)))
  else
    h <- read health ;;
    assign (set_health (h - 10)).

(** Lines 123-135, "Determine outcome weights based on mode": the pair of
    [outcome] and [food_chance].  In the three modes the outcome is the
    element [random.choices] selects; both elements carry a positive weight,
    so either can come back.  Without a mode nothing is drawn. *)
Definition determine_outcome (rnd : draws) (m : option mode_name) : outcome * float :=
  if mode_eqb m Easy then (pick rnd, 0.8%float)
  else if mode_eqb m Hard then (pick rnd, 0.4%float)
  else if mode_eqb m Nightmare then (pick rnd, 0.2%float)
  else (good, 0.0%float).

(** Lines 137-153, "Define responses for each outcome type". *)
Definition apply_outcome (response_text : string) (rnd : draws)
    (drawn : outcome) (food_chance : float) : script unit :=
  match drawn with
  | good =>
      (if mentions "move closer to success" response_text then
         assign (set_success true)
       else
         m <- read mode ;;
         if (mode_eqb m Easy && mentions "restore health" response_text)%bool then
           h <- read health ;;
           assign (set_health (Z.min 100 (h + 20)))
         else pass) ;;
      if PrimFloat.ltb (roll rnd) food_chance then
        f <- read food ;;
        assign (set_food (f + 3)) ;;
        st_info found_food_supplies
      else pass
  | bad =>
      if mentions "lose health" response_text then
        h <- read health ;;
        assign (set_health (h - 10))
      else
        h <- read health ;;
        if (mentions "fatal event" response_text && (h <=? 10))%bool then
          assign (set_health 0)
        else pass
  end.

(** Lines 155-159, "Check if game should end". *)
Definition check_end : script unit :=
  won <- read success ;;
  if won then assign (set_ended true)
  else
    h <- read health ;;
    if h <=? 0 then assign (set_ended true) else pass.

(** Lines 161-162, "Increment choices counter". *)
Definition count_choice : script unit :=
  c <- read choices_made ;;
  assign (set_choices_made (c + 1)).

Definition update_game_state (response_text : string) (rnd : draws) : script unit :=
  consume_food ;;
  m <- read mode ;;
  let (drawn, food_chance) := determine_outcome rnd m in
  apply_outcome response_text rnd drawn food_chance ;;
  check_end ;;
  count_choice.

(** ** The part of [main] that touches the game state *)

(** What one run of the script receives: the buttons that were clicked, the
    submitted chat input, the text [generate_story_response] returns and the
    random draws. *)
Record run_input : Type := mk_run_input
  { sidebar_restart : bool
  ; easy_button : bool
  ; hard_button : bool
  ; nightmare_button : bool
  ; game_over_restart : bool
  ; user_input : option string
  ; response : string
  ; rnd : draws }.

(** [st.session_state.clear ()] followed by [initialize_session_state ()]. *)
Definition restart : script unit := assign (fun _ => initial_game_state).

(** Lines 190-193, 227-239, 263-271 and 273-287 of [main].  The language
    buttons, the conversation history and the rendering do not touch
    [game_state] and are left out. *)
Definition main (ui : run_input) : script unit :=
  when (sidebar_restart ui) restart ;;
  m <- read mode ;;
  match m with
  | None =>
      when (easy_button ui) (assign (set_mode (Some Easy))) ;;
      when (hard_button ui) (assign (set_mode (Some Hard))) ;;
      when (nightmare_button ui) (assign (set_mode (Some Nightmare)))
  | Some _ =>
      over <- read ended ;;
      if over then when (game_over_restart ui) restart
      else
        match user_input ui with
        | Some (String _ _) => update_game_state (response ui) (rnd ui)
        | _ => pass
        end
  end.

(** The game states the application can be in: the initial one and whatever
    a run of [main] makes of a state it can be in. *)
Inductive reachable : game_state -> Prop :=
| reachable_initial : reachable initial_game_state
| reachable_run (ui : run_input) (g : game_state) :
    reachable g -> reachable (exec (main ui) g).

(** What holds of every reachable state. *)
Record coherent (g : game_state) : Prop := mk_coherent
  { health_le_100 : health g <= 100
  ; health_ge_minus_10 : -10 <= health g
  ; health_tens : (10 | health g)
  ; food_nonneg : 0 <= food g
  ; alive_while_playing : ended g = false -> 0 < health g /\ success g = false }.

(** ** The state each block leaves behind, as a function of the state it
    starts from.  [exec_consume_food] and its siblings below prove that these
    are what the scripts compute. *)

Definition after_food (g : game_state) : game_state :=
  if 0 <? food g then
    let new_health := Z.min 100 (health g + food_restore_health (mode g)) in
    let g1 := set_food (food g - 1) g in
    if health g <? new_health then set_health new_health g1 else g1
  else set_health (health g - 10) g.

Definition after_outcome (response_text : string) (rnd : draws)
    (drawn : outcome) (food_chance : float) (g : game_state) : game_state :=
  match drawn with
  | good =>
      let g1 :=
        if mentions "move closer to success" response_text then set_success true g
        else if (mode_eqb (mode g) Easy && mentions "restore health" response_text)%bool
             then set_health (Z.min 100 (health g + 20)) g
             else g in
      if PrimFloat.ltb (roll rnd) food_chance then set_food (food g1 + 3) g1 else g1
  | bad =>
      if mentions "lose health" response_text then set_health (health g - 10) g
      else if (mentions "fatal event" response_text && (health g <=? 10))%bool
           then set_health 0 g
           else g
  end.

Definition after_check (g : game_state) : game_state :=
  if (success g || (health g <=? 0))%bool then set_ended true g else g.

Definition after_count (g : game_state) : game_state :=
  set_choices_made (choices_made g + 1) g.

Definition after_main (ui : run_input) (g : game_state) : game_state :=
  let g0 := if sidebar_restart ui then initial_game_state else g in
  match mode g0 with
  | None =>
      let g1 := if easy_button ui then set_mode (Some Easy) g0 else g0 in
      let g2 := if hard_button ui then set_mode (Some Hard) g1 else g1 in
      if nightmare_button ui then set_mode (Some Nightmare) g2 else g2
  | Some _ =>
      if ended g0 then
        if game_over_restart ui then initial_game_state else g0
      else
        match user_input ui with
        | Some (String _ _) => exec (update_game_state (response ui) (rnd ui)) g0
        | _ => g0
        end
  end.

(** Several calls of [update_game_state] in a row. *)
Fixpoint play (calls : list (string * draws)) (g : game_state) : game_state :=
  match calls with
  | [] => g
  | (response_text, rnd) :: later =>
      play later (exec (update_game_state response_text rnd) g)
  end.

(** ** Concrete runs used below *)

Module Scenario.

Definition unlucky : draws := {| pick := bad; roll := 0.5%float |}.
Definition lucky_no_food : draws := {| pick := good; roll := 0.9%float |}.

Definition winning_reply : string := "You move closer to success!".

Definition choose (name : mode_name) : run_input :=
  {| sidebar_restart := false
   ; easy_button := match name with Easy => true | _ => false end
   ; hard_button := match name with Hard => true | _ => false end
   ; nightmare_button := match name with Nightmare => true | _ => false end
   ; game_over_restart := false
   ; user_input := None
   ; response := ""
   ; rnd := unlucky |}.

Definition act (reply : string) (d : draws) : run_input :=
  {| sidebar_restart := false
   ; easy_button := false
   ; hard_button := false
   ; nightmare_button := false
   ; game_over_restart := false
   ; user_input := Some "explore"%string
   ; response := reply
   ; rnd := d |}.

(** Nightmare mode after seven turns that all went badly. *)
Definition near_death : game_state :=
  {| health := 10
   ; food := 0
   ; choices_made := 7
   ; success := false
   ; mode := Some Nightmare
   ; ended := false |}.

(** ... and after the eighth. *)
Definition perished : game_state :=
  {| health := -10
   ; food := 0
   ; choices_made := 8
   ; success := false
   ; mode := Some Nightmare
   ; ended := true |}.

(** Easy mode after a first turn that wins the game. *)
Definition escaped : game_state :=
  {| health := 100
   ; food := 4
   ; choices_made := 1
   ; success := true
   ; mode := Some Easy
   ; ended := true |}.

(** The scenario of a starving player about to meet a fatal event. *)
Definition starving : game_state :=
  {| health := 5
   ; food := 0
   ; choices_made := 0
   ; success := false
   ; mode := Some Nightmare
   ; ended := false |}.

(** Hard mode, out of food, ten health left. *)
Definition last_legs : game_state :=
  {| health := 10
   ; food := 0
   ; choices_made := 3
   ; success := false
   ; mode := Some Hard
   ; ended := false |}.

End Scenario.

(** ** Whether a turn finds food *)

(** The food supply grows in a turn exactly when the outcome is good and the
    roll is below the food chance of the mode (lines 138 and 145). *)
Definition finds_food (m : option mode_name) (rnd : draws) : bool :=
  match fst (determine_outcome rnd m) with
  | good => PrimFloat.ltb (roll rnd) (snd (determine_outcome rnd m))
  | bad => false
  end.

(** ** The session: stored keys, history and language *)

Inductive role_name : Type := user | model.

(** A message dict [{"role": r, "parts": [{"text": t}]}]. *)
Record message : Type := mk_message
  { role : role_name
  ; parts_text : string }.

Inductive language_name : Type := English | Chinese.

(** [st.session_state] between two runs: each of the four keys is absent or
    holds a value. *)
Record session_state : Type := mk_session_state
  { stored_conversation_history : option (list message)
  ; stored_messages : option (list message)
  ; stored_game_state : option game_state
  ; stored_language : option language_name }.

(** The session with its four keys present, as it is from the first call of
    [initialize_session_state] on. *)
Record session : Type := mk_session
  { conversation_history : list message
  ; messages : list message
  ; game : game_state
  ; language : language_name }.

(** [st.session_state.clear ()] *)
Definition cleared : session_state :=
  {| stored_conversation_history := None
   ; stored_messages := None
   ; stored_game_state := None
   ; stored_language := None |}.

(** What Streamlit keeps of a session for the next run. *)
Definition stored (s : session) : session_state :=
  {| stored_conversation_history := Some (conversation_history s)
   ; stored_messages := Some (messages s)
   ; stored_game_state := Some (game s)
   ; stored_language := Some (language s) |}.

(** Lines 32-48: each key is created only if it is not there. *)
Definition initialize_session_state (st : session_state) : session :=
  {| conversation_history :=
       match stored_conversation_history st with Some h => h | None => [] end
   ; messages :=
       match stored_messages st with Some l => l | None => [] end
   ; game :=
       match stored_game_state st with Some g => g | None => initial_game_state end
   ; language :=
       match stored_language st with Some l => l | None => English end |}.

Definition set_game (g : game_state) (s : session) : session :=
  mk_session (conversation_history s) (messages s) g (language s).
Definition set_language (l : language_name) (s : session) : session :=
  mk_session (conversation_history s) (messages s) (game s) l.

(** [conversation_history.append (m)] followed by [messages.append (m)]. *)
Definition append_message (m : message) (s : session) : session :=
  mk_session (conversation_history s ++ [m])%list (messages s ++ [m])%list
    (game s) (language s).

Definition newline : string := String (ascii_of_nat 10) EmptyString.

(** Lines 203-224, the two texts that go into the history. *)
Definition greeting_text (l : language_name) : string :=
  match l with
  | English =>
      "Welcome, brave soul! You are Kaelen, a wanderer who finds yourself lost in the mysterious Cursed Forest."
  | Chinese =>
      "欢迎，勇敢的灵魂！你是凯伦，一位在神秘的诅咒森林中迷失的流浪者。"
  end.

Definition instruction_text (l : language_name) : string :=
  match l with
  | English =>
      ("What would you like to do?" ++ newline ++ newline ++
       "Remember, you can type commands like 'explore', 'look around', 'rest', or any other action you can think of. Good luck!")%string
  | Chinese =>
      ("你想做什么？" ++ newline ++ newline ++
       "记住，你可以输入像 '探索'，'环顾四周'，'休息' 等命令，或任何你能想到的行动。祝你好运！")%string
  end.

(** Lines 243-250. *)
Definition intro_message (l : language_name) : message :=
  {| role := model
   ; parts_text := (greeting_text l ++ " " ++ instruction_text l)%string |}.

(** Line 103, what [generate_story_response] returns when anything in its
    [try] block raises. *)
Definition story_fallback : string :=
  "Something went wrong in the forest... Please try again.".

(** Lines 65-103.  [sent] is what [chat_session.send_message] does: it
    returns a text or raises ([None]).  [conversation_history[-1]] raises on
    an empty history, inside the same [try].  The prompt that is sent does
    not come back into the program and is not modelled. *)
Definition generate_story_response (sent : option string)
    (history : list message) : string :=
  match history with
  | [] => story_fallback
  | _ :: _ =>
      match sent with
      | Some reply => reply
      | None => story_fallback
      end
  end.

(** What one run of the script receives, with the language buttons and the
    behaviour of the text service. *)
Record page_input : Type := mk_page_input
  { click_restart_sidebar : bool
  ; click_english : bool
  ; click_chinese : bool
  ; click_easy : bool
  ; click_hard : bool
  ; click_nightmare : bool
  ; click_restart_game_over : bool
  ; chat_input : option string
  ; sent_message : option string
  ; random_draws : draws }.

(** [main], lines 181-296, on the whole session.  Rendering is left out. *)
Definition main_session (p : page_input) (st : session_state) : session :=
  let s := initialize_session_state st in
  let s := if click_restart_sidebar p then initialize_session_state cleared else s in
  let s := if click_english p then set_language English s else s in
  let s := if click_chinese p then set_language Chinese s else s in
  match mode (game s) with
  | None =>
      let g := game s in
      let g := if click_easy p then set_mode (Some Easy) g else g in
      let g := if click_hard p then set_mode (Some Hard) g else g in
      let g := if click_nightmare p then set_mode (Some Nightmare) g else g in
      set_game g s
  | Some _ =>
      let s :=
        match conversation_history s with
        | [] => append_message (intro_message (language s)) s
        | _ :: _ => s
        end in
      if ended (game s) then
        if click_restart_game_over p then initialize_session_state cleared else s
      else
        match chat_input p with
        | Some (String c rest) =>
            let s := append_message (mk_message user (String c rest)) s in
            let response :=
              generate_story_response (sent_message p) (conversation_history s) in
            let s :=
              set_game (exec (update_game_state response (random_draws p)) (game s)) s in
            append_message (mk_message model response) s
        | _ => s
        end
  end.

(** The input of [main] above that a page input amounts to. *)
Definition run_input_of (p : page_input) : run_input :=
  {| sidebar_restart := click_restart_sidebar p
   ; easy_button := click_easy p
   ; hard_button := click_hard p
   ; nightmare_button := click_nightmare p
   ; game_over_restart := click_restart_game_over p
   ; user_input := chat_input p
   ; response :=
       match sent_message p with Some reply => reply | None => story_fallback end
   ; rnd := random_draws p |}.

(** The sessions Streamlit can hold: none at first, then what each run
    leaves. *)
Inductive session_reachable : session_state -> Prop :=
| session_empty : session_reachable cleared
| session_run (p : page_input) (st : session_state) :
    session_reachable st -> session_reachable (stored (main_session p st)).

(** The shape of a history: the introduction, then pairs of a user message
    and the reply. *)
Fixpoint exchanges (l : list message) : bool :=
  match l with
  | [] => true
  | asked :: answered :: rest =>
      match role asked, role answered with
      | user, model => exchanges rest
      | _, _ => false
      end
  | _ :: [] => false
  end.

Definition well_formed_history (l : list message) : bool :=
  match l with
  | [] => true
  | first :: rest =>
      match role first with
      | model => exchanges rest
      | user => false
      end
  end.

(** What holds of every session the application can hold. *)
Record tidy (s : session) : Prop := mk_tidy
  { same_lists : conversation_history s = messages s
  ; shaped : well_formed_history (conversation_history s) = true
  ; introduced :
      match conversation_history s with
      | [] => True
      | first :: _ =>
          first = intro_message English \/ first = intro_message Chinese
      end
  ; counted :
      match conversation_history s with
      | [] => choices_made (game s) = 0
      | _ :: _ =>
          Z.of_nat (length (conversation_history s)) =
          1 + 2 * choices_made (game s)
      end
  ; silent_before_mode :
      mode (game s) = None -> conversation_history s = []
  ; game_reachable : reachable (game s) }.

(** ** Concrete pages used below *)

Module Page.

Definition quiet : page_input :=
  {| click_restart_sidebar := false
   ; click_english := false
   ; click_chinese := false
   ; click_easy := false
   ; click_hard := false
   ; click_nightmare := false
   ; click_restart_game_over := false
   ; chat_input := None
   ; sent_message := None
   ; random_draws := Scenario.unlucky |}.

Definition choose_hard : page_input :=
  {| click_restart_sidebar := false
   ; click_english := false
   ; click_chinese := false
   ; click_easy := false
   ; click_hard := true
   ; click_nightmare := false
   ; click_restart_game_over := false
   ; chat_input := None
   ; sent_message := None
   ; random_draws := Scenario.unlucky |}.

(** The player types while the text service is down. *)
Definition type_offline : page_input :=
  {| click_restart_sidebar := false
   ; click_english := false
   ; click_chinese := false
   ; click_easy := false
   ; click_hard := false
   ; click_nightmare := false
   ; click_restart_game_over := false
   ; chat_input := Some "look around"%string
   ; sent_message := None
   ; random_draws := Scenario.unlucky |}.



(** The session once Hard mode is chosen, and once a first turn is played
    in it. *)
Definition mode_chosen : session_state :=
  stored (main_session choose_hard cleared).

Definition first_turn_played : session_state :=
  stored (main_session type_offline mode_chosen).


End Page.

(** ** Proof tools *)

Ltac unfold_script :=
  cbv beta iota zeta delta
    [update_game_state consume_food determine_outcome apply_outcome check_end
     count_choice restart bind ret read assign st_info pass when exec shown
     fst snd food_restore_health mode_eqb andb orb
     set_health set_food set_choices_made set_success set_mode set_ended
     health food choices_made success mode ended pick roll].

(** Case analysis on a condition that has no condition inside. *)
Ltac split_branch :=
  match goal with
  | |- context [if ?c then _ else _] =>
      lazymatch c with
      | context [if _ then _ else _] => fail
      | _ => destruct c eqn:?
      end
  end.

Ltac run_script := unfold_script; repeat (split_branch; unfold_script).

Ltac to_Z :=
  repeat match goal with
  | H : (_ <? _) = true |- _ => apply Z.ltb_lt in H
  | H : (_ <? _) = false |- _ => apply Z.ltb_ge in H
  | H : (_ <=? _) = true |- _ => apply Z.leb_le in H
  | H : (_ <=? _) = false |- _ => apply Z.leb_gt in H
  end.

Ltac tens :=
  repeat match goal with
  | H : (10 | _) |- _ => apply Z.mod_divide in H; [| discriminate]
  | |- (10 | _) => apply Z.mod_divide; [discriminate |]
  end.

Ltac arith := to_Z; tens; Z.div_mod_to_equations; lia.

Ltac reduce_fields :=
  cbn [mode_eqb fst snd andb orb health food success mode ended choices_made
       set_health set_food set_success set_ended set_choices_made set_mode
       pick roll] in *.

(** All paths through the food block and the outcome block. *)
Ltac cases :=
  unfold after_outcome, after_food, determine_outcome, food_restore_health;
  repeat match goal with
  | g : game_state |- _ => destruct g as [? ? ? ? [[]|] ?]
  | d : draws |- _ => destruct d as [[] ?]
  end;
  reduce_fields;
  repeat (split_branch; reduce_fields).

(** ** The scripts compute the [after_] functions *)

Lemma exec_bind {A B : Type} (m : script A) (k : A -> script B) g :
  exec (bind m k) g = exec (k (fst (fst (m g)))) (exec m g).
Proof.
  unfold exec, bind. destruct (m g) as [[a g1] out1]. simpl.
  destruct (k a g1) as [[b g2] out2]. reflexivity.
Qed.

Lemma bind_read {A B : Type} (field : game_state -> A) (k : A -> script B) g :
  bind (read field) k g = k (field g) g.
Proof.
  unfold bind, read. destruct (k (field g) g) as [[b g2] out2]. reflexivity.
Qed.

Lemma bind_congr {A B : Type} (m : script A) (k1 k2 : A -> script B) g :
  k1 (fst (fst (m g))) (exec m g) = k2 (fst (fst (m g))) (exec m g) ->
  bind m k1 g = bind m k2 g.
Proof.
  unfold bind, exec. destruct (m g) as [[a g1] out1]. cbn [fst snd].
  intros Hsame. rewrite Hsame. reflexivity.
Qed.

Lemma exec_consume_food g : exec consume_food g = after_food g.
Proof.
  unfold after_food. destruct g as [? ? ? ? [[]|] ?]; run_script; reflexivity.
Qed.

Lemma exec_apply_outcome text rnd drawn chance g :
  exec (apply_outcome text rnd drawn chance) g = after_outcome text rnd drawn chance g.
Proof.
  unfold after_outcome.
  destruct g as [? ? ? ? [[]|] ?], drawn; run_script; reflexivity.
Qed.

Lemma exec_check_end g : exec check_end g = after_check g.
Proof.
  unfold after_check. destruct g as [? ? ? [] ? ?]; run_script; reflexivity.
Qed.

Lemma exec_count_choice g : exec count_choice g = after_count g.
Proof. reflexivity. Qed.

Lemma mode_after_food g : mode (after_food g) = mode g.
Proof. unfold after_food. destruct g; run_script; reflexivity. Qed.

Lemma exec_update_game_state text rnd g :
  exec (update_game_state text rnd) g =
  after_count (after_check
    (after_outcome text rnd (fst (determine_outcome rnd (mode g)))
       (snd (determine_outcome rnd (mode g))) (after_food g))).
Proof.
  unfold update_game_state.
  rewrite exec_bind, exec_consume_food, exec_bind.
  change (exec (read mode) (after_food g)) with (after_food g).
  change (fst (fst (read mode (after_food g)))) with (mode (after_food g)).
  rewrite mode_after_food.
  destruct (determine_outcome rnd (mode g)) as [drawn chance].
  rewrite exec_bind, exec_apply_outcome, exec_bind, exec_check_end, exec_count_choice.
  reflexivity.
Qed.

(** The food notice is shown exactly when eating raised health. *)
Lemma shown_consume_food g :
  shown consume_food g =
  if (0 <? food g) && (health g <? health (exec consume_food g))
  then [consumed_food_restored 10] else [].
Proof.
  destruct g as [h f c s [[]|] e]; run_script; try reflexivity; to_Z; lia.
Qed.

Lemma exec_main ui g : exec (main ui) g = after_main ui g.
Proof.
  unfold main, after_main.
  rewrite exec_bind.
  set (g0 := exec (when (sidebar_restart ui) restart) g).
  assert (E0 : g0 = if sidebar_restart ui then initial_game_state else g)
    by (unfold g0; destruct (sidebar_restart ui); reflexivity).
  rewrite <- E0. clearbody g0. clear E0 g.
  rewrite exec_bind.
  change (exec (read mode) g0) with g0.
  change (fst (fst (read mode g0))) with (mode g0).
  destruct (mode g0) as [name|].
  - rewrite exec_bind.
    change (exec (read ended) g0) with g0.
    change (fst (fst (read ended g0))) with (ended g0).
    destruct (ended g0).
    + destruct (game_over_restart ui); reflexivity.
    + destruct (user_input ui) as [[|c rest]|]; reflexivity.
  - destruct (easy_button ui), (hard_button ui), (nightmare_button ui); reflexivity.
Qed.

(** ** Fields the last two blocks leave alone *)

Lemma health_after_count g : health (after_count g) = health g.
Proof. reflexivity. Qed.
Lemma food_after_count g : food (after_count g) = food g.
Proof. reflexivity. Qed.
Lemma success_after_count g : success (after_count g) = success g.
Proof. reflexivity. Qed.
Lemma mode_after_count g : mode (after_count g) = mode g.
Proof. reflexivity. Qed.
Lemma ended_after_count g : ended (after_count g) = ended g.
Proof. reflexivity. Qed.
Lemma choices_after_count g : choices_made (after_count g) = choices_made g + 1.
Proof. reflexivity. Qed.

Lemma health_after_check g : health (after_check g) = health g.
Proof. unfold after_check. destruct (_ || _)%bool; reflexivity. Qed.
Lemma food_after_check g : food (after_check g) = food g.
Proof. unfold after_check. destruct (_ || _)%bool; reflexivity. Qed.
Lemma success_after_check g : success (after_check g) = success g.
Proof. unfold after_check. destruct (_ || _)%bool; reflexivity. Qed.
Lemma mode_after_check g : mode (after_check g) = mode g.
Proof. unfold after_check. destruct (_ || _)%bool; reflexivity. Qed.
Lemma choices_after_check g : choices_made (after_check g) = choices_made g.
Proof. unfold after_check. destruct (_ || _)%bool; reflexivity. Qed.
Lemma ended_after_check g :
  ended (after_check g) = (success g || (health g <=? 0) || ended g)%bool.
Proof.
  unfold after_check. destruct (_ || _)%bool; [reflexivity |].
  destruct (ended g); reflexivity.
Qed.

Create Rewrite HintDb fields.
#[local] Hint Rewrite health_after_count food_after_count success_after_count
  mode_after_count ended_after_count choices_after_count
  health_after_check food_after_check success_after_check mode_after_check
  choices_after_check ended_after_check : fields.

Ltac turn := rewrite ?exec_update_game_state, ?exec_consume_food;
             autorewrite with fields.

Lemma ended_after_outcome text rnd drawn chance g :
  ended (after_outcome text rnd drawn chance (after_food g)) = ended g.
Proof. destruct drawn; cases; reflexivity. Qed.

(** ** One turn, field by field *)

Lemma health_after_turn text rnd g :
  health g <= 100 ->
  health g - 20 <= health (exec (update_game_state text rnd) g) <= 100.
Proof. turn. cases; intros; arith. Qed.

Lemma tens_after_turn text rnd g :
  health g <= 100 -> (10 | health g) ->
  (10 | health (exec (update_game_state text rnd) g)).
Proof. turn. cases; intros; arith. Qed.

Lemma food_after_turn text rnd g :
  0 <= food g -> 0 <= food (exec (update_game_state text rnd) g).
Proof. turn. cases; intros; arith. Qed.

Lemma ended_after_turn text rnd g :
  ended (exec (update_game_state text rnd) g) =
  (success (exec (update_game_state text rnd) g)
   || (health (exec (update_game_state text rnd) g) <=? 0)
   || ended g)%bool.
Proof. turn. rewrite ended_after_outcome. reflexivity. Qed.

(** ** Every reachable state is coherent *)

Lemma coherent_initial : coherent initial_game_state.
Proof.
  split; cbn;
    [lia | lia | exists 10; reflexivity | lia | intros _; split; [lia | reflexivity]].
Qed.

Lemma coherent_set_mode m g : coherent g -> coherent (set_mode m g).
Proof. intros [? ? ? ? ?]. split; assumption. Qed.

Lemma coherent_update text rnd g :
  coherent g -> ended g = false ->
  coherent (exec (update_game_state text rnd) g).
Proof.
  intros [Hle Hge Htens Hfood Halive] Hplay.
  destruct (Halive Hplay) as [Hpos Hsucc].
  pose proof (health_after_turn text rnd g Hle) as Hrange.
  pose proof (ended_after_turn text rnd g) as Hend.
  rewrite Hplay, orb_false_r in Hend.
  split.
  - lia.
  - arith.
  - apply tens_after_turn; assumption.
  - apply food_after_turn; assumption.
  - intros Hstill. rewrite Hstill in Hend. symmetry in Hend.
    apply orb_false_elim in Hend. destruct Hend as [Hs Hh].
    split; [arith | assumption].
Qed.

Lemma coherent_main ui g : coherent g -> coherent (exec (main ui) g).
Proof.
  intros Hg. rewrite exec_main. unfold after_main.
  set (g0 := if sidebar_restart ui then initial_game_state else g).
  assert (H0 : coherent g0)
    by (unfold g0; destruct (sidebar_restart ui); [apply coherent_initial | assumption]).
  clearbody g0.
  destruct (mode g0).
  - destruct (ended g0) eqn:Hplay.
    + destruct (game_over_restart ui); [apply coherent_initial | assumption].
    + destruct (user_input ui) as [[|c rest]|]; try assumption.
      apply coherent_update; assumption.
  - destruct (easy_button ui), (hard_button ui), (nightmare_button ui);
      repeat apply coherent_set_mode; assumption.
Qed.

Lemma reachable_coherent g : reachable g -> coherent g.
Proof.
  induction 1 as [|ui g Hg IH].
  - apply coherent_initial.
  - apply coherent_main, IH.
Qed.

(** The scenario states come up in play. *)

Lemma near_death_reachable : reachable Scenario.near_death.
Proof.
  pose (hurt := Scenario.act "You stumble and lose health." Scenario.unlucky).
  replace Scenario.near_death with
    (exec (main hurt) (exec (main hurt) (exec (main hurt) (exec (main hurt)
       (exec (main hurt) (exec (main hurt) (exec (main hurt)
          (exec (main (Scenario.choose Nightmare)) initial_game_state))))))))
    by (vm_compute; reflexivity).
  repeat apply reachable_run. apply reachable_initial.
Qed.

Lemma perished_reachable : reachable Scenario.perished.
Proof.
  replace Scenario.perished with
    (exec (main (Scenario.act "You lose health again." Scenario.unlucky))
       Scenario.near_death)
    by (vm_compute; reflexivity).
  apply reachable_run, near_death_reachable.
Qed.

Lemma escaped_reachable : reachable Scenario.escaped.
Proof.
  replace Scenario.escaped with
    (exec (main (Scenario.act "You move closer to success!" Scenario.lucky_no_food))
       (exec (main (Scenario.choose Easy)) initial_game_state))
    by (vm_compute; reflexivity).
  repeat apply reachable_run. apply reachable_initial.
Qed.

(** ** Health bounds *)

(** C1, as stated, fails: health is not kept at or above 0.  [near_death]
    is reachable and not ended; one more turn in which the player starves
    and the outcome is bad with "lose health" in the text leaves health at
    -10. *)
Lemma health_drops_below_zero :
  reachable Scenario.near_death /\
  ended Scenario.near_death = false /\
  health (exec (update_game_state "You lose health again." Scenario.unlucky)
            Scenario.near_death) = -10 /\
  ~ (0 <= health (exec (update_game_state "You lose health again." Scenario.unlucky)
                    Scenario.near_death) <= 100).
Proof.
  split; [apply near_death_reachable |].
  split; [reflexivity |].
  split; [vm_compute; reflexivity |].
  vm_compute. intros [H _]. apply H. reflexivity.
Qed.

(** C1, amended: from every reachable state, health after a call of
    [update_game_state] is at most 100 and at least the health before minus
    20; it is at least -10 when the state was not ended, which is when
    [main] makes the call. *)
Theorem health_range_after_turn g text rnd :
  reachable g ->
  health (exec (update_game_state text rnd) g) <= 100 /\
  health g - 20 <= health (exec (update_game_state text rnd) g) /\
  (ended g = false -> -10 <= health (exec (update_game_state text rnd) g)).
Proof.
  intros Hg. apply reachable_coherent in Hg.
  destruct Hg as [Hle Hge Htens Hfood Halive].
  pose proof (health_after_turn text rnd g Hle) as Hrange.
  repeat split; try lia.
  intros Hplay. destruct (Halive Hplay) as [Hpos _]. arith.
Qed.

Lemma health_range_after_turn_witness :
  reachable Scenario.near_death /\
  (health (exec (update_game_state "You lose health again." Scenario.unlucky)
             Scenario.near_death) <= 100 /\
   health Scenario.near_death - 20 <=
     health (exec (update_game_state "You lose health again." Scenario.unlucky)
               Scenario.near_death) /\
   (ended Scenario.near_death = false ->
    -10 <= health (exec (update_game_state "You lose health again." Scenario.unlucky)
                     Scenario.near_death))).
Proof.
  split.
  - exact near_death_reachable.
  - exact (health_range_after_turn Scenario.near_death "You lose health again."
             Scenario.unlucky near_death_reachable).
Defined.

(** ** Calls after the game has ended *)

(** C2, as stated, fails: [update_game_state] does not look at [ended].
    Called on the reachable, ended state [escaped] it consumes a unit of
    food like any other turn. *)
Lemma update_game_state_ignores_ended :
  reachable Scenario.escaped /\
  ended Scenario.escaped = true /\
  food Scenario.escaped = 4 /\
  food (exec (update_game_state "Nothing happens." Scenario.unlucky)
          Scenario.escaped) = 3.
Proof.
  split; [apply escaped_reachable |].
  repeat split; vm_compute; reflexivity.
Qed.

(** C2, amended: the guard is in [main].  In a state with [ended] set, a run
    of [main] in which no restart button is clicked makes no call of
    [update_game_state]: health, food, success, the counter and [ended] stay
    as they are, whatever the input. *)
Theorem main_leaves_ended_game ui g :
  ended g = true ->
  sidebar_restart ui = false ->
  game_over_restart ui = false ->
  health (exec (main ui) g) = health g /\
  food (exec (main ui) g) = food g /\
  success (exec (main ui) g) = success g /\
  choices_made (exec (main ui) g) = choices_made g /\
  ended (exec (main ui) g) = true.
Proof.
  intros Hover Hside Hbutton.
  rewrite exec_main. unfold after_main. rewrite Hside.
  destruct (mode g).
  - rewrite Hover, Hbutton. repeat split. assumption.
  - destruct (easy_button ui), (hard_button ui), (nightmare_button ui);
      repeat split; assumption.
Qed.

Lemma main_leaves_ended_game_witness :
  ended Scenario.escaped = true /\
  sidebar_restart (Scenario.act "You lose health." Scenario.unlucky) = false /\
  game_over_restart (Scenario.act "You lose health." Scenario.unlucky) = false /\
  health (exec (main (Scenario.act "You lose health." Scenario.unlucky))
            Scenario.escaped) = health Scenario.escaped /\
  food (exec (main (Scenario.act "You lose health." Scenario.unlucky))
          Scenario.escaped) = food Scenario.escaped /\
  success (exec (main (Scenario.act "You lose health." Scenario.unlucky))
             Scenario.escaped) = success Scenario.escaped /\
  choices_made (exec (main (Scenario.act "You lose health." Scenario.unlucky))
                  Scenario.escaped) = choices_made Scenario.escaped /\
  ended (exec (main (Scenario.act "You lose health." Scenario.unlucky))
           Scenario.escaped) = true.
Proof.
  split; [reflexivity |]. split; [reflexivity |]. split; [reflexivity |].
  exact (main_leaves_ended_game (Scenario.act "You lose health." Scenario.unlucky)
           Scenario.escaped eq_refl eq_refl eq_refl).
Defined.

(** ** The food block *)

(** C3: with health at most 100, as in every reachable state
    ([reachable_coherent]), the food block of [update_game_state] takes one
    unit of food when there is some and sets health to
    [min (100, health + regen)], regen being 10 in Easy and Hard mode and 0
    in Nightmare mode; with no food left it takes 10 from health.  Nothing
    else changes. *)
Theorem consume_food_rule g :
  health g <= 100 ->
  (0 < food g ->
     food (exec consume_food g) = food g - 1 /\
     (mode g = Some Easy \/ mode g = Some Hard ->
        health (exec consume_food g) = Z.min 100 (health g + 10)) /\
     (mode g = Some Nightmare ->
        health (exec consume_food g) = Z.min 100 (health g + 0))) /\
  (food g = 0 ->
     food (exec consume_food g) = 0 /\
     health (exec consume_food g) = health g - 10) /\
  success (exec consume_food g) = success g /\
  ended (exec consume_food g) = ended g /\
  mode (exec consume_food g) = mode g /\
  choices_made (exec consume_food g) = choices_made g.
Proof.
  intros Hle. turn. unfold after_food, food_restore_health.
  destruct g as [h f c s m e]. reduce_fields.
  destruct (0 <? f) eqn:Hfood.
  - split; [intros _ | split; [intros Hnone; arith |]].
    + split; [destruct (h <? _); reflexivity |].
      split; [intros [Hm | Hm] | intros Hm]; subst m; reduce_fields;
        destruct (h <? _) eqn:Hup; reduce_fields; arith.
    + destruct (h <? _); repeat split.
  - split; [intros Hsome; arith |].
    split; [intros Hnone; split; [exact Hnone | reflexivity] |].
    repeat split.
Qed.

Lemma consume_food_rule_witness :
  health initial_game_state <= 100 /\
  ((0 < food initial_game_state ->
     food (exec consume_food initial_game_state) = food initial_game_state - 1 /\
     (mode initial_game_state = Some Easy \/ mode initial_game_state = Some Hard ->
        health (exec consume_food initial_game_state) =
        Z.min 100 (health initial_game_state + 10)) /\
     (mode initial_game_state = Some Nightmare ->
        health (exec consume_food initial_game_state) =
        Z.min 100 (health initial_game_state + 0))) /\
   (food initial_game_state = 0 ->
     food (exec consume_food initial_game_state) = 0 /\
     health (exec consume_food initial_game_state) = health initial_game_state - 10) /\
   success (exec consume_food initial_game_state) = success initial_game_state /\
   ended (exec consume_food initial_game_state) = ended initial_game_state /\
   mode (exec consume_food initial_game_state) = mode initial_game_state /\
   choices_made (exec consume_food initial_game_state) =
   choices_made initial_game_state).
Proof.
  assert (Hle : health initial_game_state <= 100) by discriminate.
  split; [exact Hle | exact (consume_food_rule initial_game_state Hle)].
Defined.

(** ** The outcome block *)

(** C4: when the outcome of the turn is good, relative to the state the food
    block leaves: with "move closer to success" in the lowercased text,
    success is set and health is untouched; otherwise, in Easy mode with
    "restore health" in the text, health becomes [min (100, health + 20)] and
    success is untouched; otherwise neither changes.  In all three cases food
    grows by exactly 3 when the roll is below the food chance of the mode and
    stays as it is when it is not. *)
Theorem good_outcome_effects text rnd g :
  fst (determine_outcome rnd (mode g)) = good ->
  (mentions "move closer to success" text = true ->
     success (exec (update_game_state text rnd) g) = true /\
     health (exec (update_game_state text rnd) g) = health (exec consume_food g)) /\
  (mentions "move closer to success" text = false ->
   mode g = Some Easy ->
   mentions "restore health" text = true ->
     health (exec (update_game_state text rnd) g) =
       Z.min 100 (health (exec consume_food g) + 20) /\
     success (exec (update_game_state text rnd) g) = success g) /\
  (mentions "move closer to success" text = false ->
   mode g <> Some Easy \/ mentions "restore health" text = false ->
     health (exec (update_game_state text rnd) g) = health (exec consume_food g) /\
     success (exec (update_game_state text rnd) g) = success g) /\
  food (exec (update_game_state text rnd) g) =
    if PrimFloat.ltb (roll rnd) (snd (determine_outcome rnd (mode g)))
    then food (exec consume_food g) + 3
    else food (exec consume_food g).
Proof.
  intros Hgood. turn. rewrite Hgood.
  set (chance := snd (determine_outcome rnd (mode g))). clearbody chance.
  clear Hgood.
  unfold after_outcome.
  assert (Hmode : mode (after_food g) = mode g) by apply mode_after_food.
  assert (Hsucc : success (after_food g) = success g)
    by (unfold after_food; destruct g; run_script; reflexivity).
  set (fed := after_food g) in *. clearbody fed.
  rewrite Hmode.
  destruct (mentions "move closer to success" text) eqn:Hwin;
    [| destruct (mode_eqb (mode g) Easy) eqn:Heasy;
       [destruct (mentions "restore health" text) eqn:Hheal |]];
    cbn [andb]; destruct (PrimFloat.ltb (roll rnd) chance);
    destruct fed as [h f c s m e]; reduce_fields; subst s;
    (split; [intros Ha; try discriminate; split; reflexivity |]);
    (split; [intros Ha Hb Hc; try discriminate;
             try (rewrite Hb in Heasy; discriminate); split; reflexivity |]);
    (split; [intros Ha [Hb | Hb]; try discriminate;
             try (split; reflexivity);
             destruct (mode g) as [[]|]; try discriminate; contradiction
            | reflexivity]).
Qed.

Lemma good_outcome_effects_witness :
  fst (determine_outcome Scenario.lucky_no_food (mode initial_game_state)) = good /\
  ((mentions "move closer to success" Scenario.winning_reply = true ->
     success (exec (update_game_state Scenario.winning_reply Scenario.lucky_no_food) initial_game_state) = true /\
     health (exec (update_game_state Scenario.winning_reply Scenario.lucky_no_food) initial_game_state) = health (exec consume_food initial_game_state)) /\
  (mentions "move closer to success" Scenario.winning_reply = false ->
   mode initial_game_state = Some Easy ->
   mentions "restore health" Scenario.winning_reply = true ->
     health (exec (update_game_state Scenario.winning_reply Scenario.lucky_no_food) initial_game_state) =
       Z.min 100 (health (exec consume_food initial_game_state) + 20) /\
     success (exec (update_game_state Scenario.winning_reply Scenario.lucky_no_food) initial_game_state) = success initial_game_state) /\
  (mentions "move closer to success" Scenario.winning_reply = false ->
   mode initial_game_state <> Some Easy \/ mentions "restore health" Scenario.winning_reply = false ->
     health (exec (update_game_state Scenario.winning_reply Scenario.lucky_no_food) initial_game_state) = health (exec consume_food initial_game_state) /\
     success (exec (update_game_state Scenario.winning_reply Scenario.lucky_no_food) initial_game_state) = success initial_game_state) /\
  food (exec (update_game_state Scenario.winning_reply Scenario.lucky_no_food) initial_game_state) =
    if PrimFloat.ltb (roll Scenario.lucky_no_food) (snd (determine_outcome Scenario.lucky_no_food (mode initial_game_state)))
    then food (exec consume_food initial_game_state) + 3
    else food (exec consume_food initial_game_state)).
Proof.
  split; [reflexivity |].
  exact (good_outcome_effects Scenario.winning_reply Scenario.lucky_no_food
           initial_game_state eq_refl).
Defined.

(** ** The end of the game *)

Lemma ended_stays text rnd g :
  ended g = true -> ended (exec (update_game_state text rnd) g) = true.
Proof.
  intros Hover. rewrite ended_after_turn, Hover. apply orb_true_r.
Qed.

(** C5: after a call of [update_game_state] on a state that was not ended,
    [ended] is set if and only if [success] is set or health is at most 0;
    and a state that is ended is still ended after one call, and after any
    number of calls. *)
Theorem ended_iff_success_or_dead text rnd g :
  (ended g = false ->
     (ended (exec (update_game_state text rnd) g) = true <->
      success (exec (update_game_state text rnd) g) = true \/
      health (exec (update_game_state text rnd) g) <= 0)) /\
  (ended g = true -> ended (exec (update_game_state text rnd) g) = true) /\
  (forall later, ended g = true -> ended (play later g) = true).
Proof.
  split; [| split].
  - intros Hplay. rewrite ended_after_turn at 1. rewrite Hplay, orb_false_r.
    rewrite orb_true_iff, Z.leb_le. reflexivity.
  - apply ended_stays.
  - intros later. revert g.
    induction later as [|[reply draw] later IH]; intros g Hover; cbn [play].
    + exact Hover.
    + apply IH, ended_stays, Hover.
Qed.

Lemma ended_iff_success_or_dead_witness :
  (ended Scenario.near_death = false ->
     (ended (exec (update_game_state "You lose health." Scenario.unlucky)
               Scenario.near_death) = true <->
      success (exec (update_game_state "You lose health." Scenario.unlucky)
                 Scenario.near_death) = true \/
      health (exec (update_game_state "You lose health." Scenario.unlucky)
                Scenario.near_death) <= 0)) /\
  (ended Scenario.near_death = true ->
     ended (exec (update_game_state "You lose health." Scenario.unlucky)
              Scenario.near_death) = true) /\
  (forall later,
     ended Scenario.near_death = true ->
     ended (play later Scenario.near_death) = true).
Proof.
  exact (ended_iff_success_or_dead "You lose health." Scenario.unlucky
           Scenario.near_death).
Defined.

(** C6: when the player has no food, the 10 points lost to starvation take
    health to 0 or below, the outcome is good and the text has "move closer
    to success" in it, the turn ends with [success] and [ended] both set,
    health staying at the starved value. *)
Theorem success_overrides_starvation text rnd g :
  food g <= 0 ->
  health g - 10 <= 0 ->
  fst (determine_outcome rnd (mode g)) = good ->
  mentions "move closer to success" text = true ->
  success (exec (update_game_state text rnd) g) = true /\
  ended (exec (update_game_state text rnd) g) = true /\
  health (exec (update_game_state text rnd) g) = health g - 10.
Proof.
  intros Hfood Hdead Hgood Hwin. turn. rewrite Hgood.
  set (chance := snd (determine_outcome rnd (mode g))). clearbody chance.
  unfold after_outcome, after_food. rewrite Hwin.
  assert (Hnone : (0 <? food g) = false) by (apply Z.ltb_ge; exact Hfood).
  rewrite Hnone.
  destruct g as [h f c s m e]. reduce_fields.
  destruct (PrimFloat.ltb (roll rnd) chance); reduce_fields; repeat split.
Qed.

Lemma success_overrides_starvation_witness :
  food Scenario.last_legs <= 0 /\
  health Scenario.last_legs - 10 <= 0 /\
  fst (determine_outcome Scenario.lucky_no_food (mode Scenario.last_legs)) = good /\
  mentions "move closer to success" Scenario.winning_reply = true /\
  success (exec (update_game_state Scenario.winning_reply Scenario.lucky_no_food)
             Scenario.last_legs) = true /\
  ended (exec (update_game_state Scenario.winning_reply Scenario.lucky_no_food)
           Scenario.last_legs) = true /\
  health (exec (update_game_state Scenario.winning_reply Scenario.lucky_no_food)
            Scenario.last_legs) = health Scenario.last_legs - 10.
Proof.
  assert (Hfood : food Scenario.last_legs <= 0) by discriminate.
  assert (Hdead : health Scenario.last_legs - 10 <= 0) by discriminate.
  split; [exact Hfood |]. split; [exact Hdead |].
  split; [reflexivity |]. split; [reflexivity |].
  exact (success_overrides_starvation Scenario.winning_reply Scenario.lucky_no_food
           Scenario.last_legs Hfood Hdead eq_refl eq_refl).
Defined.

(** ** The fatal event *)

(** C7, as stated, fails: "lose health" is looked for first.  A text with
    both phrases in it takes 10 more points from the starved health and
    leaves -15, not 0. *)
Lemma fatal_event_after_lose_health :
  mentions "fatal event" "You lose health in a fatal event." = true /\
  health (exec (update_game_state "You lose health in a fatal event."
                  Scenario.unlucky) Scenario.starving) = -15.
Proof. split; vm_compute; reflexivity. Qed.

(** C7, amended: in Nightmare mode with no food, health 5 and success not
    set, a bad outcome on a text that has "fatal event" but not "lose health"
    in it gives health 0, [ended] set and [success] not set. *)
Theorem fatal_event_scenario text rnd g :
  mode g = Some Nightmare ->
  food g = 0 ->
  health g = 5 ->
  success g = false ->
  pick rnd = bad ->
  mentions "fatal event" text = true ->
  mentions "lose health" text = false ->
  health (exec (update_game_state text rnd) g) = 0 /\
  ended (exec (update_game_state text rnd) g) = true /\
  success (exec (update_game_state text rnd) g) = false.
Proof.
  intros Hmode Hfood Hhealth Hsucc Hbad Hfatal Hlose. turn.
  rewrite ended_after_outcome.
  destruct g as [h f c s m e], rnd as [p r]. reduce_fields. subst.
  unfold after_outcome, after_food, determine_outcome. reduce_fields.
  rewrite Hlose, Hfatal. repeat split.
Qed.

Lemma fatal_event_scenario_witness :
  mode Scenario.starving = Some Nightmare /\
  food Scenario.starving = 0 /\
  health Scenario.starving = 5 /\
  success Scenario.starving = false /\
  pick Scenario.unlucky = bad /\
  mentions "fatal event" "A fatal event strikes." = true /\
  mentions "lose health" "A fatal event strikes." = false /\
  health (exec (update_game_state "A fatal event strikes." Scenario.unlucky)
            Scenario.starving) = 0 /\
  ended (exec (update_game_state "A fatal event strikes." Scenario.unlucky)
           Scenario.starving) = true /\
  success (exec (update_game_state "A fatal event strikes." Scenario.unlucky)
             Scenario.starving) = false.
Proof.
  do 7 (split; [reflexivity |]).
  exact (fatal_event_scenario "A fatal event strikes." Scenario.unlucky
           Scenario.starving eq_refl eq_refl eq_refl eq_refl eq_refl eq_refl eq_refl).
Defined.

(** ** The turn counter *)

(** C8: every call of [update_game_state] adds exactly 1 to [choices_made],
    whatever the state, the text and the draws, the call that ends the game
    included. *)
Theorem choices_made_incremented text rnd g :
  choices_made (exec (update_game_state text rnd) g) = choices_made g + 1.
Proof.
  turn. destruct (determine_outcome rnd (mode g)) as [drawn chance].
  destruct drawn; cases; reflexivity.
Qed.

(** ** Turns without a mode *)

(** C9, as stated, fails: [update_game_state] raises nothing when [mode] is
    [None].  On the initial state the call returns, having consumed a unit of
    food and counted the choice like any other turn. *)
Lemma unset_mode_turn_goes_through :
  mode initial_game_state = None /\
  update_game_state "You wait." Scenario.unlucky initial_game_state =
    (tt,
     {| health := 100
      ; food := 4
      ; choices_made := 1
      ; success := false
      ; mode := None
      ; ended := false |},
     []).
Proof. split; vm_compute; reflexivity. Qed.

(** C9, amended: with [mode] at [None], [update_game_state] runs the turn
    with the outcome fixed to good and a food chance of 0.0 (food restoring 10
    health as outside Nightmare mode), and returns.  It is [main] that keeps
    such a call from being made: while [mode] is [None], a run of [main] does
    no more than a restart and setting the mode. *)
Theorem unset_mode_turn text rnd g :
  mode g = None ->
  update_game_state text rnd g =
    (consume_food ;; apply_outcome text rnd good 0%float ;; check_end ;; count_choice) g /\
  food_restore_health (mode g) = 10 /\
  (forall ui, exists m,
     exec (main ui) g =
     set_mode m (if sidebar_restart ui then initial_game_state else g)).
Proof.
  intros Hmode. split; [| split].
  - unfold update_game_state. apply bind_congr.
    rewrite bind_read, exec_consume_food, mode_after_food, Hmode.
    reflexivity.
  - rewrite Hmode. reflexivity.
  - intros ui. rewrite exec_main. unfold after_main.
    set (g0 := if sidebar_restart ui then initial_game_state else g).
    assert (H0 : mode g0 = None)
      by (unfold g0; destruct (sidebar_restart ui); [reflexivity | assumption]).
    clearbody g0. rewrite H0.
    destruct g0 as [h f c s m e]. cbn [mode] in H0. subst m.
    destruct (easy_button ui), (hard_button ui), (nightmare_button ui);
      eexists; reflexivity.
Qed.

Lemma unset_mode_turn_witness :
  mode initial_game_state = None /\
  update_game_state "You wait." Scenario.unlucky initial_game_state =
    (consume_food ;; apply_outcome "You wait." Scenario.unlucky good 0%float ;;
     check_end ;; count_choice) initial_game_state /\
  food_restore_health (mode initial_game_state) = 10 /\
  (forall ui, exists m,
     exec (main ui) initial_game_state =
     set_mode m (if sidebar_restart ui then initial_game_state
                 else initial_game_state)).
Proof.
  split; [reflexivity |].
  exact (unset_mode_turn "You wait." Scenario.unlucky initial_game_state eq_refl).
Defined.

(** ** Nightmare mode *)




(** * Further properties of the game engine *)

(** ** What a turn never touches, and what it adds up to *)

Lemma mode_after_turn text rnd g :
  mode (exec (update_game_state text rnd) g) = mode g.
Proof.
  turn. destruct (determine_outcome rnd (mode g)) as [drawn chance].
  destruct drawn; cases; reflexivity.
Qed.

Lemma food_after_turn_exact text rnd g :
  food (exec (update_game_state text rnd) g) =
  (if 0 <? food g then food g - 1 else food g) +
  (if finds_food (mode g) rnd then 3 else 0).
Proof. turn. unfold finds_food. cases; lia. Qed.

Lemma success_after_turn text rnd g :
  success (exec (update_game_state text rnd) g) =
  (success g ||
   match fst (determine_outcome rnd (mode g)) with
   | good => mentions "move closer to success" text
   | bad => false
   end)%bool.
Proof.
  turn. cases; rewrite ?orb_true_r, ?orb_false_r; reflexivity.
Qed.

(** X1: no number of calls of [update_game_state] changes the mode. *)
Theorem play_keeps_mode calls g : mode (play calls g) = mode g.
Proof.
  revert g. induction calls as [|[reply draw] later IH]; intros g; cbn [play].
  - reflexivity.
  - rewrite IH. apply mode_after_turn.
Qed.

(** X2: a turn sets [success] exactly when the outcome is good and the
    lowercased text has "move closer to success" in it, and never clears
    it. *)
Theorem success_set_only_by_good_outcome text rnd g :
  (success (exec (update_game_state text rnd) g) = true <->
   success g = true \/
   (fst (determine_outcome rnd (mode g)) = good /\
    mentions "move closer to success" text = true)).
Proof.
  rewrite success_after_turn, orb_true_iff.
  destruct (fst (determine_outcome rnd (mode g))).
  - split; intros [Hs | Hw]; auto. destruct Hw as [_ Hw]. auto.
  - split; intros [Hs | Hw]; auto; [discriminate |].
    destruct Hw as [Hw _]. discriminate.
Qed.

(** X3: the food supply after a turn is the supply before, less the unit
    eaten if there was one, plus 3 if the turn finds food; so a turn takes
    at most 1 and adds at most 3. *)
Theorem food_accounting text rnd g :
  food (exec (update_game_state text rnd) g) =
    (if 0 <? food g then food g - 1 else food g) +
    (if finds_food (mode g) rnd then 3 else 0) /\
  food g - 1 <= food (exec (update_game_state text rnd) g) <= food g + 3.
Proof.
  rewrite food_after_turn_exact. split; [reflexivity |].
  destruct (0 <? food g) eqn:Hfood, (finds_food (mode g) rnd); arith.
Qed.

(** ** Turns that find no food *)

(** X4: over any number of turns that find no food, the supply goes down by
    one a turn until it is empty: from [food g >= 0] it ends at
    [max (0, food g - n)] after [n] turns. *)
Theorem food_runs_out calls g :
  0 <= food g ->
  Forall (fun call => finds_food (mode g) (snd call) = false) calls ->
  food (play calls g) = Z.max 0 (food g - Z.of_nat (length calls)).
Proof.
  revert g. induction calls as [|[reply draw] later IH]; intros g Hfood Hnone.
  - cbn [play length]. lia.
  - inversion Hnone as [|call rest Hfirst Hrest]; subst. cbn [snd] in Hfirst.
    cbn [play].
    pose proof (food_after_turn_exact reply draw g) as Hturn.
    rewrite Hfirst in Hturn.
    rewrite IH.
    + rewrite Hturn. cbn [length]. destruct (0 <? food g) eqn:Hsome; arith.
    + rewrite Hturn. destruct (0 <? food g) eqn:Hsome; arith.
    + rewrite mode_after_turn. exact Hrest.
Qed.

Lemma food_runs_out_witness :
  0 <= food initial_game_state /\
  Forall (fun call => finds_food (mode initial_game_state) (snd call) = false)
    [("You wait."%string, Scenario.unlucky); ("You wait."%string, Scenario.unlucky)] /\
  food (play [("You wait."%string, Scenario.unlucky);
              ("You wait."%string, Scenario.unlucky)] initial_game_state) =
  Z.max 0 (food initial_game_state - Z.of_nat 2).
Proof.
  assert (Hfood : 0 <= food initial_game_state) by discriminate.
  assert (Hnone : Forall
            (fun call => finds_food (mode initial_game_state) (snd call) = false)
            [("You wait."%string, Scenario.unlucky);
             ("You wait."%string, Scenario.unlucky)])
    by (repeat constructor).
  split; [exact Hfood |]. split; [exact Hnone |].
  exact (food_runs_out _ initial_game_state Hfood Hnone).
Defined.

(** ** Texts without a trigger phrase *)

(** X5: on a text that has none of the four phrases in it, the fallback of
    [generate_story_response] among them, the outcome block leaves health and
    [success] alone: health is what the food block made of it, and the game
    ends on this turn only if that is 0 or less (or [success] was set
    already). *)
Theorem unmatched_text_only_drains text rnd g :
  mentions "move closer to success" text = false ->
  mentions "restore health" text = false ->
  mentions "lose health" text = false ->
  mentions "fatal event" text = false ->
  health (exec (update_game_state text rnd) g) = health (exec consume_food g) /\
  success (exec (update_game_state text rnd) g) = success g /\
  ended (exec (update_game_state text rnd) g) =
    (success g || (health (exec consume_food g) <=? 0) || ended g)%bool.
Proof.
  intros Hwin Hheal Hlose Hfatal.
  assert (Hhealth : health (exec (update_game_state text rnd) g) =
                    health (exec consume_food g)).
  { turn. unfold after_outcome. rewrite Hwin, Hheal, Hlose, Hfatal.
    rewrite andb_false_r. cbn [andb].
    destruct (fst (determine_outcome rnd (mode g)));
      [destruct (PrimFloat.ltb _ _) |]; reflexivity. }
  assert (Hsuccess : success (exec (update_game_state text rnd) g) = success g).
  { rewrite success_after_turn, Hwin.
    destruct (fst (determine_outcome rnd (mode g))); apply orb_false_r. }
  split; [exact Hhealth |]. split; [exact Hsuccess |].
  rewrite ended_after_turn, Hhealth, Hsuccess. reflexivity.
Qed.

Lemma unmatched_text_only_drains_witness :
  mentions "move closer to success" story_fallback = false /\
  mentions "restore health" story_fallback = false /\
  mentions "lose health" story_fallback = false /\
  mentions "fatal event" story_fallback = false /\
  health (exec (update_game_state story_fallback Scenario.unlucky)
            Scenario.last_legs) = health (exec consume_food Scenario.last_legs) /\
  success (exec (update_game_state story_fallback Scenario.unlucky)
             Scenario.last_legs) = success Scenario.last_legs /\
  ended (exec (update_game_state story_fallback Scenario.unlucky)
           Scenario.last_legs) =
    (success Scenario.last_legs ||
     (health (exec consume_food Scenario.last_legs) <=? 0) ||
     ended Scenario.last_legs)%bool.
Proof.
  do 4 (split; [reflexivity |]).
  exact (unmatched_text_only_drains story_fallback Scenario.unlucky
           Scenario.last_legs eq_refl eq_refl eq_refl eq_refl).
Defined.

(** ** How much health a turn can give *)

(** X6: from a health that is not negative, a turn adds to health at most
    what the food eaten restores (10, or 0 in Nightmare mode, and nothing
    without food) plus, in Easy mode only, the 20 of "restore health". *)
Theorem health_gain_bounded text rnd g :
  0 <= health g ->
  health (exec (update_game_state text rnd) g) <=
  health g +
  (if 0 <? food g then food_restore_health (mode g) else 0) +
  (if mode_eqb (mode g) Easy then 20 else 0).
Proof. turn. cases; intros; arith. Qed.

Lemma health_gain_bounded_witness :
  0 <= health Scenario.last_legs /\
  health (exec (update_game_state Scenario.winning_reply Scenario.lucky_no_food)
            Scenario.last_legs) <=
  health Scenario.last_legs +
  (if 0 <? food Scenario.last_legs
   then food_restore_health (mode Scenario.last_legs) else 0) +
  (if mode_eqb (mode Scenario.last_legs) Easy then 20 else 0).
Proof.
  assert (Hpos : 0 <= health Scenario.last_legs) by discriminate.
  split; [exact Hpos |].
  exact (health_gain_bounded Scenario.winning_reply Scenario.lucky_no_food
           Scenario.last_legs Hpos).
Defined.

(** ** Starvation *)

Lemma starved_health text rnd g :
  mode g <> Some Easy -> food g <= 0 ->
  health (exec (update_game_state text rnd) g) <= Z.max (health g - 10) 0.
Proof.
  intros Hmode. turn. revert Hmode.
  cases; intros; try arith; exfalso; apply Hmode; reflexivity.
Qed.

Lemma dead_is_ended_after_turn text rnd g :
  health (exec (update_game_state text rnd) g) <= 0 ->
  ended (exec (update_game_state text rnd) g) = true.
Proof.
  intros Hdead. rewrite ended_after_turn.
  apply Z.leb_le in Hdead. rewrite Hdead, orb_true_r. reflexivity.
Qed.

Lemma starvation_ends calls :
  forall g,
    mode g <> Some Easy ->
    health g <= 100 ->
    0 <= food g ->
    (health g <= 0 -> ended g = true) ->
    Forall (fun call => finds_food (mode g) (snd call) = false) calls ->
    (0 < food g -> food g + 10 <= Z.of_nat (length calls)) ->
    (food g = 0 -> health g <= 10 * Z.of_nat (length calls)) ->
    ended (play calls g) = true.
Proof.
  induction calls as [|[reply draw] later IH];
    intros g Hmode Hle Hfood Hdead Hnone Heating Hstarving.
  - cbn [play length] in *. apply Hdead. lia.
  - inversion Hnone as [|call rest Hfirst Hrest]; subst. cbn [snd] in Hfirst.
    cbn [play].
    pose proof (food_after_turn_exact reply draw g) as Hturn.
    rewrite Hfirst in Hturn.
    pose proof (health_after_turn reply draw g Hle) as Hrange.
    cbn [length] in Heating, Hstarving.
    apply IH.
    + rewrite mode_after_turn. exact Hmode.
    + lia.
    + rewrite Hturn. destruct (0 <? food g) eqn:Hsome; arith.
    + apply dead_is_ended_after_turn.
    + rewrite mode_after_turn. exact Hrest.
    + rewrite Hturn. destruct (0 <? food g) eqn:Hsome; arith.
    + rewrite Hturn. intros Hempty.
      destruct (0 <? food g) eqn:Hsome.
      * arith.
      * pose proof (starved_health reply draw g Hmode) as Hstarved. arith.
Qed.

(** X7: outside Easy mode a player who finds no food cannot last: from a
    reachable state, after [food g + 10] turns or more that find no food the
    game has ended, whatever the texts and the outcomes. *)
Theorem starvation_is_fatal calls g :
  reachable g ->
  mode g <> Some Easy ->
  Forall (fun call => finds_food (mode g) (snd call) = false) calls ->
  food g + 10 <= Z.of_nat (length calls) ->
  ended (play calls g) = true.
Proof.
  intros Hreach Hmode Hnone Hlong.
  destruct (reachable_coherent g Hreach) as [Hle Hge Htens Hfood Halive].
  apply starvation_ends; try assumption; try lia.
  intros Hdead. destruct (ended g) eqn:Hover; [reflexivity |].
  destruct (Halive eq_refl) as [Hpos _]. lia.
Qed.

Lemma starvation_is_fatal_witness :
  reachable Scenario.near_death /\
  mode Scenario.near_death <> Some Easy /\
  Forall (fun call => finds_food (mode Scenario.near_death) (snd call) = false)
    (repeat ("You wait."%string, Scenario.unlucky) 10) /\
  food Scenario.near_death + 10 <=
    Z.of_nat (length (repeat ("You wait."%string, Scenario.unlucky) 10)) /\
  ended (play (repeat ("You wait."%string, Scenario.unlucky) 10)
           Scenario.near_death) = true.
Proof.
  assert (Hmode : mode Scenario.near_death <> Some Easy) by discriminate.
  assert (Hnone : Forall
            (fun call => finds_food (mode Scenario.near_death) (snd call) = false)
            (repeat ("You wait."%string, Scenario.unlucky) 10))
    by (repeat constructor).
  assert (Hlong : food Scenario.near_death + 10 <=
                  Z.of_nat (length (repeat ("You wait."%string, Scenario.unlucky) 10)))
    by discriminate.
  split; [exact near_death_reachable |]. split; [exact Hmode |].
  split; [exact Hnone |]. split; [exact Hlong |].
  exact (starvation_is_fatal _ Scenario.near_death near_death_reachable
           Hmode Hnone Hlong).
Defined.

(** ** Invariants of the states [main] goes through *)

(** A property of the initial state that setting the mode and playing a turn
    from a state that has not ended both keep holds of every reachable
    state. *)
Lemma reachable_invariant (P : game_state -> Prop) :
  P initial_game_state ->
  (forall m g, P g -> P (set_mode m g)) ->
  (forall text rnd g,
     reachable g -> P g -> ended g = false ->
     P (exec (update_game_state text rnd) g)) ->
  forall g, reachable g -> P g.
Proof.
  intros Hinit Hmode Hturn g Hreach.
  induction Hreach as [|ui g Hreach IH]; [exact Hinit |].
  rewrite exec_main. unfold after_main.
  destruct (sidebar_restart ui).
  - cbn [mode initial_game_state].
    destruct (easy_button ui), (hard_button ui), (nightmare_button ui);
      repeat apply Hmode; exact Hinit.
  - destruct (mode g).
    + destruct (ended g) eqn:Hplay.
      * destruct (game_over_restart ui); assumption.
      * destruct (user_input ui) as [[|c rest]|]; try assumption.
        apply Hturn; assumption.
    + destruct (easy_button ui), (hard_button ui), (nightmare_button ui);
        repeat apply Hmode; exact IH.
Qed.

Lemma choices_after_turn text rnd g :
  choices_made (exec (update_game_state text rnd) g) = choices_made g + 1.
Proof.
  turn. destruct (determine_outcome rnd (mode g)) as [drawn chance].
  destruct drawn; cases; reflexivity.
Qed.

Lemma reachable_ended_for_a_reason g :
  reachable g ->
  0 <= choices_made g /\
  (ended g = true -> success g = true \/ health g <= 0).
Proof.
  revert g. apply reachable_invariant.
  - split; [discriminate | intros Hover; discriminate Hover].
  - intros m g Hg. exact Hg.
  - intros text rnd g _ [Hcount _] Hplay. split.
    + rewrite choices_after_turn. lia.
    + rewrite ended_after_turn, Hplay, orb_false_r, orb_true_iff, Z.leb_le.
      intros H. exact H.
Qed.

(** X8: in every state the application can reach, health is a multiple of
    10 between -10 and 100, food and the turn counter are not negative, and
    the game has ended if and only if [success] is set or health is 0 or
    less. *)
Theorem reachable_state_invariants g :
  reachable g ->
  -10 <= health g <= 100 /\
  (10 | health g) /\
  0 <= food g /\
  0 <= choices_made g /\
  (ended g = true <-> success g = true \/ health g <= 0).
Proof.
  intros Hreach.
  destruct (reachable_coherent g Hreach) as [Hle Hge Htens Hfood Halive].
  destruct (reachable_ended_for_a_reason g Hreach) as [Hcount Hwhy].
  repeat split; try assumption.
  intros [Hwon | Hdead]; destruct (ended g); try reflexivity;
    destruct (Halive eq_refl) as [Hpos Hnot].
  - rewrite Hwon in Hnot. discriminate.
  - lia.
Qed.

Lemma reachable_state_invariants_witness :
  reachable Scenario.perished /\
  (-10 <= health Scenario.perished <= 100 /\
   (10 | health Scenario.perished) /\
   0 <= food Scenario.perished /\
   0 <= choices_made Scenario.perished /\
   (ended Scenario.perished = true <->
    success Scenario.perished = true \/ health Scenario.perished <= 0)).
Proof.
  split; [exact perished_reachable |].
  exact (reachable_state_invariants Scenario.perished perished_reachable).
Defined.

(** X9: once a mode is chosen, no run of [main] changes it, unless a restart
    button is clicked. *)
Theorem mode_fixed_until_restart ui g name :
  mode g = Some name ->
  sidebar_restart ui = false ->
  game_over_restart ui = false ->
  mode (exec (main ui) g) = Some name.
Proof.
  intros Hmode Hside Hbutton.
  rewrite exec_main. unfold after_main. rewrite Hside, Hmode.
  destruct (ended g); [rewrite Hbutton; exact Hmode |].
  destruct (user_input ui) as [[|c rest]|]; try exact Hmode.
  rewrite mode_after_turn. exact Hmode.
Qed.

Lemma mode_fixed_until_restart_witness :
  mode Scenario.near_death = Some Nightmare /\
  sidebar_restart (Scenario.choose Easy) = false /\
  game_over_restart (Scenario.choose Easy) = false /\
  mode (exec (main (Scenario.choose Easy)) Scenario.near_death) = Some Nightmare.
Proof.
  do 3 (split; [reflexivity |]).
  exact (mode_fixed_until_restart (Scenario.choose Easy) Scenario.near_death
           Nightmare eq_refl eq_refl eq_refl).
Defined.

(** X10: in play, Nightmare mode only ever takes health away: from a
    reachable state in Nightmare mode, a run of [main] without a restart
    leaves health at or below what it was. *)
Theorem nightmare_play_never_heals ui g :
  reachable g ->
  mode g = Some Nightmare ->
  sidebar_restart ui = false ->
  game_over_restart ui = false ->
  health (exec (main ui) g) <= health g.
Proof.
  intros Hreach Hmode Hside Hbutton.
  destruct (reachable_coherent g Hreach) as [_ _ _ _ Halive].
  rewrite exec_main. unfold after_main. rewrite Hside, Hmode.
  destruct (ended g) eqn:Hplay; [rewrite Hbutton; lia |].
  destruct (user_input ui) as [[|c rest]|]; try lia.
  destruct (Halive eq_refl) as [Hpos _].
  turn. revert Hpos.
  destruct g as [h f n s m e]. cbn [mode] in Hmode. subst m.
  cases; intros; arith.
Qed.

Lemma nightmare_play_never_heals_witness :
  reachable Scenario.near_death /\
  mode Scenario.near_death = Some Nightmare /\
  sidebar_restart (Scenario.act "A fatal event strikes." Scenario.unlucky) = false /\
  game_over_restart (Scenario.act "A fatal event strikes." Scenario.unlucky) = false /\
  health (exec (main (Scenario.act "A fatal event strikes." Scenario.unlucky))
            Scenario.near_death) <= health Scenario.near_death.
Proof.
  split; [exact near_death_reachable |].
  do 3 (split; [reflexivity |]).
  exact (nightmare_play_never_heals
           (Scenario.act "A fatal event strikes." Scenario.unlucky)
           Scenario.near_death near_death_reachable eq_refl eq_refl eq_refl).
Defined.

(** X11: short of a restart, a run of [main] plays a turn, and counts it, if
    and only if a mode is set, the game has not ended and the chat input is a
    non-empty string; in every other case health, food, [success] and
    [ended] are what they were. *)
Theorem turn_played_iff ui g :
  sidebar_restart ui = false ->
  game_over_restart ui = false ->
  (choices_made (exec (main ui) g) = choices_made g + 1 <->
   mode g <> None /\ ended g = false /\
   exists c rest, user_input ui = Some (String c rest)) /\
  (choices_made (exec (main ui) g) <> choices_made g + 1 ->
   choices_made (exec (main ui) g) = choices_made g /\
   health (exec (main ui) g) = health g /\
   food (exec (main ui) g) = food g /\
   success (exec (main ui) g) = success g /\
   ended (exec (main ui) g) = ended g).
Proof.
  intros Hside Hbutton.
  rewrite exec_main. unfold after_main. rewrite Hside.
  destruct (mode g) as [name|] eqn:Hmode.
  - destruct (ended g) eqn:Hplay.
    + rewrite Hbutton, Hplay. split.
      * split; [lia | intros (_ & Hno & _); discriminate].
      * intros _. repeat split.
    + destruct (user_input ui) as [[|c rest]|] eqn:Hinput.
      * split; [| intros _; repeat split; assumption].
        split; [lia | intros (_ & _ & c & rest & Hsome); discriminate].
      * rewrite choices_after_turn. split.
        -- split; [| reflexivity].
           intros _. split; [discriminate |]. split; [reflexivity |].
           exists c, rest. reflexivity.
        -- intros Hno. contradiction Hno. reflexivity.
      * split; [| intros _; repeat split; assumption].
        split; [lia | intros (_ & _ & c & rest & Hsome); discriminate].
  - assert (Hsame : forall g1 : game_state,
              choices_made g1 = choices_made g /\ health g1 = health g /\
              food g1 = food g /\ success g1 = success g /\ ended g1 = ended g ->
              forall m,
              choices_made (set_mode m g1) = choices_made g /\
              health (set_mode m g1) = health g /\
              food (set_mode m g1) = food g /\
              success (set_mode m g1) = success g /\
              ended (set_mode m g1) = ended g)
      by (intros g1 Hg1 m; exact Hg1).
    assert (Hg : choices_made g = choices_made g /\ health g = health g /\
                 food g = food g /\ success g = success g /\ ended g = ended g)
      by (repeat split).
    set (g' := if nightmare_button ui then _ else _).
    assert (Hg' : choices_made g' = choices_made g /\ health g' = health g /\
                  food g' = food g /\ success g' = success g /\ ended g' = ended g)
      by (unfold g'; destruct (easy_button ui), (hard_button ui),
            (nightmare_button ui); repeat apply Hsame; exact Hg).
    clearbody g'. destruct Hg' as (Hc & Hh & Hf & Hs & He).
    split.
    + rewrite Hc. split; [lia | intros (Hno & _); contradiction Hno; reflexivity].
    + intros _. repeat split; assumption.
Qed.

Lemma turn_played_iff_witness :
  sidebar_restart (Scenario.act "You lose health." Scenario.unlucky) = false /\
  game_over_restart (Scenario.act "You lose health." Scenario.unlucky) = false /\
  choices_made (exec (main (Scenario.act "You lose health." Scenario.unlucky))
                  Scenario.near_death) = choices_made Scenario.near_death + 1.
Proof.
  do 2 (split; [reflexivity |]).
  destruct (turn_played_iff (Scenario.act "You lose health." Scenario.unlucky)
              Scenario.near_death eq_refl eq_refl) as [[_ Hplayed] _].
  apply Hplayed. split; [discriminate |]. split; [reflexivity |].
  eexists; eexists; reflexivity.
Defined.

(** ** Finding a phrase in a text *)





(** ** The session *)

Lemma initialize_stored s : initialize_session_state (stored s) = s.
Proof. destruct s; reflexivity. Qed.

Lemma generate_story_response_after_input sent h m :
  generate_story_response sent (h ++ [m]) =
  match sent with Some reply => reply | None => story_fallback end.
Proof. destruct h; reflexivity. Qed.

Ltac reduce_session :=
  cbn [conversation_history messages game language set_game set_language
       append_message initialize_session_state cleared stored
       stored_conversation_history stored_messages stored_game_state
       stored_language run_input_of sidebar_restart easy_button hard_button
       nightmare_button game_over_restart user_input response rnd] in *.

(** The session once the restart and language buttons of the side bar have
    been handled (lines 188-200). *)
Lemma main_session_unfold p st :
  exists s1,
    game s1 = (if click_restart_sidebar p then initial_game_state
               else game (initialize_session_state st)) /\
    conversation_history s1 =
      (if click_restart_sidebar p then []
       else conversation_history (initialize_session_state st)) /\
    messages s1 =
      (if click_restart_sidebar p then []
       else messages (initialize_session_state st)) /\
    language s1 =
      (if click_chinese p then Chinese
       else if click_english p then English
       else if click_restart_sidebar p then English
       else language (initialize_session_state st)) /\
    main_session p st =
      match mode (game s1) with
      | None =>
          let g := game s1 in
          let g := if click_easy p then set_mode (Some Easy) g else g in
          let g := if click_hard p then set_mode (Some Hard) g else g in
          let g := if click_nightmare p then set_mode (Some Nightmare) g else g in
          set_game g s1
      | Some _ =>
          let s :=
            match conversation_history s1 with
            | [] => append_message (intro_message (language s1)) s1
            | _ :: _ => s1
            end in
          if ended (game s) then
            if click_restart_game_over p then initialize_session_state cleared else s
          else
            match chat_input p with
            | Some (String c rest) =>
                let s := append_message (mk_message user (String c rest)) s in
                let response :=
                  generate_story_response (sent_message p) (conversation_history s) in
                let s :=
                  set_game (exec (update_game_state response (random_draws p)) (game s)) s in
                append_message (mk_message model response) s
            | _ => s
            end
      end.
Proof.
  unfold main_session.
  set (s0 := initialize_session_state st).
  exists (let s := if click_restart_sidebar p
                   then initialize_session_state cleared else s0 in
          let s := if click_english p then set_language English s else s in
          if click_chinese p then set_language Chinese s else s).
  split; [| split; [| split; [| split; [| reflexivity]]]];
    destruct (click_restart_sidebar p), (click_english p), (click_chinese p);
    reflexivity.
Qed.

Lemma game_main_session p st :
  game (main_session p st) =
  exec (main (run_input_of p)) (game (initialize_session_state st)).
Proof.
  destruct (main_session_unfold p st) as (s1 & Hgame & Hhist & _ & _ & Hmain).
  rewrite Hmain, exec_main. unfold after_main, run_input_of.
  cbn [sidebar_restart easy_button hard_button nightmare_button
       game_over_restart user_input response rnd].
  rewrite <- Hgame. clear Hgame Hhist Hmain.
  destruct s1 as [h l g lang]. cbn [game conversation_history language].
  destruct (mode g).
  - assert (Hsame : forall m, game (append_message m (mk_session h l g lang)) = g)
      by reflexivity.
    set (s := match h with [] => _ | _ :: _ => _ end).
    assert (Hs : game s = g) by (unfold s; destruct h; reflexivity).
    assert (Hh : conversation_history s <> [])
      by (unfold s; destruct h; discriminate).
    clearbody s. rewrite Hs.
    destruct (ended g).
    + destruct (click_restart_game_over p); [reflexivity | exact Hs].
    + destruct (chat_input p) as [[|c typed]|]; try exact Hs.
      cbn [game append_message set_game conversation_history].
      rewrite generate_story_response_after_input, Hs. reflexivity.
  - cbn [set_game game]. reflexivity.
Qed.

(** ** Every session that is held is tidy *)

Lemma exchanges_then_pair asked answered :
  role asked = user -> role answered = model ->
  forall l, exchanges l = true ->
  exchanges ((l ++ [asked]) ++ [answered]) = true.
Proof.
  intros Hasked Hanswered.
  fix IH 1. intros [|x [|y l]] Hl.
  - cbn. rewrite Hasked, Hanswered. reflexivity.
  - discriminate Hl.
  - cbn in Hl |- *. destruct (role x); [| discriminate Hl].
    destruct (role y); [discriminate Hl |]. apply IH. exact Hl.
Qed.

Lemma tidy_fresh : tidy (initialize_session_state cleared).
Proof.
  split; cbn; try reflexivity; try exact I. apply reachable_initial.
Qed.

Lemma tidy_same_content s s' :
  tidy s ->
  game s' = game s ->
  conversation_history s' = conversation_history s ->
  messages s' = messages s ->
  tidy s'.
Proof.
  intros [Hsame Hshape Hintro Hcount Hsilent Hreach] Hg Hh Hm.
  split; rewrite ?Hg, ?Hh, ?Hm; assumption.
Qed.

Lemma tidy_mode s g' :
  tidy s ->
  mode (game s) = None ->
  choices_made g' = choices_made (game s) ->
  reachable g' ->
  tidy (set_game g' s).
Proof.
  intros [Hsame Hshape Hintro Hcount Hsilent Hreach] Hmode Hchoices Hreach'.
  pose proof (Hsilent Hmode) as Hempty.
  split; cbn [set_game conversation_history messages game]; try assumption.
  - rewrite Hempty in Hcount |- *. rewrite Hchoices. exact Hcount.
  - intros _. exact Hempty.
Qed.

Lemma tidy_intro s l :
  tidy s ->
  conversation_history s = [] ->
  mode (game s) <> None ->
  tidy (append_message (intro_message l) s).
Proof.
  intros [Hsame Hshape Hintro Hcount Hsilent Hreach] Hempty Hmode.
  rewrite Hempty in Hcount.
  split; cbn [append_message conversation_history messages game].
  - rewrite <- Hsame. reflexivity.
  - rewrite Hempty. reflexivity.
  - rewrite Hempty. cbn [app]. destruct l; [left | right]; reflexivity.
  - rewrite Hempty. cbn [app length]. rewrite Hcount. reflexivity.
  - intros Hnone. contradiction.
  - exact Hreach.
Qed.

Lemma tidy_turn s typed reply g' :
  tidy s ->
  conversation_history s <> [] ->
  mode (game s) <> None ->
  choices_made g' = choices_made (game s) + 1 ->
  mode g' = mode (game s) ->
  reachable g' ->
  tidy (append_message (mk_message model reply)
          (set_game g' (append_message (mk_message user typed) s))).
Proof.
  intros [Hsame Hshape Hintro Hcount Hsilent Hreach] Hsome Hmode Hchoices Hkeep Hreach'.
  destruct (conversation_history s) as [|first rest] eqn:Hh; [contradiction |].
  split; cbn [append_message set_game conversation_history messages game];
    rewrite ?Hh.
  - rewrite <- Hsame. reflexivity.
  - cbn in Hshape |- *. destruct (role first); [discriminate Hshape |].
    apply exchanges_then_pair; try reflexivity. exact Hshape.
  - exact Hintro.
  - cbn [app]. rewrite Hchoices. cbn [length] in *. rewrite !length_app.
    cbn [length]. lia.
  - rewrite Hkeep. intros Hnone. contradiction.
  - exact Hreach'.
Qed.

Lemma tidy_main_session p st :
  tidy (initialize_session_state st) -> tidy (main_session p st).
Proof.
  intros Htidy.
  assert (Hreach : reachable (game (main_session p st)))
    by (rewrite game_main_session; apply reachable_run, Htidy).
  destruct (main_session_unfold p st) as (s1 & Hgame & Hhist & Hmsgs & _ & Hmain).
  rewrite Hmain in *. clear Hmain.
  assert (H1 : tidy s1).
  { destruct (click_restart_sidebar p).
    - apply (tidy_same_content (initialize_session_state cleared));
        [apply tidy_fresh | assumption ..].
    - apply (tidy_same_content (initialize_session_state st)); assumption. }
  clear Hgame Hhist Hmsgs Htidy.
  destruct (mode (game s1)) as [name|] eqn:Hmode.
  - assert (Hset : mode (game s1) <> None) by (rewrite Hmode; discriminate).
    set (s := match conversation_history s1 with [] => _ | _ :: _ => _ end) in *.
    assert (Hs : tidy s /\ conversation_history s <> [] /\ game s = game s1).
    { unfold s. destruct (conversation_history s1) as [|first rest] eqn:Hh.
      - split; [apply tidy_intro; assumption |].
        split; [| reflexivity].
        cbn [append_message conversation_history]. rewrite Hh. discriminate.
      - split; [exact H1 |]. split; [rewrite Hh; discriminate | reflexivity]. }
    clearbody s. destruct Hs as (Hs & Hsome & Hsame).
    cbv zeta in *.
    destruct (ended (game s)).
    + destruct (click_restart_game_over p); [apply tidy_fresh | exact Hs].
    + destruct (chat_input p) as [[|c typed]|]; try exact Hs.
      apply tidy_turn; try assumption.
      * rewrite Hsame. exact Hset.
      * apply choices_after_turn.
      * apply mode_after_turn.
  - cbv zeta in *. apply tidy_mode; try assumption.
    destruct (click_easy p), (click_hard p), (click_nightmare p); reflexivity.
Qed.

Lemma session_reachable_tidy st :
  session_reachable st -> tidy (initialize_session_state st).
Proof.
  induction 1 as [|p st Hst IH].
  - apply tidy_fresh.
  - rewrite initialize_stored. apply tidy_main_session, IH.
Qed.

Lemma first_turn_played_reachable : session_reachable Page.first_turn_played.
Proof. repeat apply session_run. apply session_empty. Qed.

(** X13: on the game state, a run of [main] on the whole session does what
    the game-level [main] does on the input it amounts to, the response
    being the reply of the text service or the fallback when the service
    fails; so the game state of every session that is held is a reachable
    one. *)
Theorem main_session_refines_main p st :
  game (main_session p st) =
    exec (main (run_input_of p)) (game (initialize_session_state st)) /\
  (session_reachable st -> reachable (game (initialize_session_state st))).
Proof.
  split; [apply game_main_session |].
  intros Hst. apply session_reachable_tidy, Hst.
Qed.

Lemma main_session_refines_main_witness :
  game (main_session Page.type_offline Page.mode_chosen) =
    exec (main (run_input_of Page.type_offline))
      (game (initialize_session_state Page.mode_chosen)) /\
  (session_reachable Page.mode_chosen ->
   reachable (game (initialize_session_state Page.mode_chosen))).
Proof.
  exact (main_session_refines_main Page.type_offline Page.mode_chosen).
Defined.

(** X14: the two lists the session keeps, [conversation_history] and
    [messages], are always equal. *)
Theorem history_and_messages_agree st :
  session_reachable st ->
  conversation_history (initialize_session_state st) =
  messages (initialize_session_state st).
Proof. intros Hst. apply session_reachable_tidy, Hst. Qed.

Lemma history_and_messages_agree_witness :
  session_reachable Page.first_turn_played /\
  conversation_history (initialize_session_state Page.first_turn_played) =
  messages (initialize_session_state Page.first_turn_played).
Proof.
  split; [exact first_turn_played_reachable |].
  exact (history_and_messages_agree Page.first_turn_played
           first_turn_played_reachable).
Defined.

(** X15: the history is empty as long as no mode is chosen; an empty history
    goes with a turn counter of 0; and a history that is not empty has one
    message more than twice the turn counter. *)
Theorem history_length_counts_turns st :
  session_reachable st ->
  (mode (game (initialize_session_state st)) = None ->
   conversation_history (initialize_session_state st) = []) /\
  (conversation_history (initialize_session_state st) = [] ->
   choices_made (game (initialize_session_state st)) = 0) /\
  (conversation_history (initialize_session_state st) <> [] ->
   Z.of_nat (length (conversation_history (initialize_session_state st))) =
   1 + 2 * choices_made (game (initialize_session_state st))).
Proof.
  intros Hst.
  destruct (session_reachable_tidy st Hst) as [_ _ _ Hcount Hsilent _].
  split; [exact Hsilent |].
  destruct (conversation_history (initialize_session_state st)) as [|first rest].
  - split; [intros _; exact Hcount | intros Hno; contradiction Hno; reflexivity].
  - split; [discriminate | intros _; exact Hcount].
Qed.

Lemma history_length_counts_turns_witness :
  session_reachable Page.first_turn_played /\
  Z.of_nat (length (conversation_history
                      (initialize_session_state Page.first_turn_played))) =
  1 + 2 * choices_made (game (initialize_session_state Page.first_turn_played)).
Proof.
  split; [exact first_turn_played_reachable |].
  destruct (history_length_counts_turns Page.first_turn_played
              first_turn_played_reachable) as (_ & _ & Hcount).
  apply Hcount. discriminate.
Defined.

(** X16: a history that is not empty starts with the introduction, in
    English or in Chinese, said by the model, and goes on in pairs of a user
    message and the model's reply. *)
Theorem history_alternates st :
  session_reachable st ->
  well_formed_history (conversation_history (initialize_session_state st)) = true /\
  (forall first rest,
     conversation_history (initialize_session_state st) = first :: rest ->
     (first = intro_message English \/ first = intro_message Chinese) /\
     exchanges rest = true).
Proof.
  intros Hst.
  destruct (session_reachable_tidy st Hst) as [_ Hshape Hintro _ _ _].
  split; [exact Hshape |].
  intros first rest Hh. rewrite Hh in Hshape, Hintro.
  split; [exact Hintro |].
  cbn in Hshape. destruct (role first); [discriminate Hshape | exact Hshape].
Qed.

Lemma history_alternates_witness :
  session_reachable Page.first_turn_played /\
  well_formed_history
    (conversation_history (initialize_session_state Page.first_turn_played)) = true /\
  (forall first rest,
     conversation_history (initialize_session_state Page.first_turn_played) =
     first :: rest ->
     (first = intro_message English \/ first = intro_message Chinese) /\
     exchanges rest = true).
Proof.
  split; [exact first_turn_played_reachable |].
  exact (history_alternates Page.first_turn_played first_turn_played_reachable).
Defined.

(** ** What a run adds to the history *)




(** ** Restarting *)



(** ** Creating the session *)

(** X19: [initialize_session_state] fills in what is missing and nothing
    else: on the session a run leaves behind it changes nothing, a key that
    is present keeps its value whatever the other keys, and an empty session
    gets the defaults, whose game state is the initial one. *)
Theorem initialize_session_state_fills_gaps :
  (forall s, initialize_session_state (stored s) = s) /\
  (forall st,
     initialize_session_state (stored (initialize_session_state st)) =
     initialize_session_state st) /\
  (forall st g,
     stored_game_state st = Some g -> game (initialize_session_state st) = g) /\
  (forall st h,
     stored_conversation_history st = Some h ->
     conversation_history (initialize_session_state st) = h) /\
  (forall st l,
     stored_messages st = Some l -> messages (initialize_session_state st) = l) /\
  (forall st l,
     stored_language st = Some l -> language (initialize_session_state st) = l) /\
  initialize_session_state cleared =
    {| conversation_history := []
     ; messages := []
     ; game := initial_game_state
     ; language := English |}.
Proof.
  split; [apply initialize_stored |].
  split; [intros st; apply initialize_stored |].
  repeat split; intros st v Hkey; unfold initialize_session_state;
    cbn [game conversation_history messages language]; rewrite Hkey; reflexivity.
Qed.

(** ** When the text service fails *)

(** X20: a turn is played even when the text service raises an error: with
    a mode set, the game not ended and a text typed, the game state is
    updated on the fallback text, the turn is counted, and the fallback is
    what the history gets as the reply. *)
Theorem failed_reply_still_plays_a_turn p st c typed :
  click_restart_sidebar p = false ->
  mode (game (initialize_session_state st)) <> None ->
  ended (game (initialize_session_state st)) = false ->
  chat_input p = Some (String c typed) ->
  sent_message p = None ->
  game (main_session p st) =
    exec (update_game_state story_fallback (random_draws p))
      (game (initialize_session_state st)) /\
  choices_made (game (main_session p st)) =
    choices_made (game (initialize_session_state st)) + 1 /\
  last (conversation_history (main_session p st)) (intro_message English) =
    mk_message model story_fallback.
Proof.
  intros Hside Hmode Hplay Hinput Hsent.
  assert (Hgame : game (main_session p st) =
                  exec (update_game_state story_fallback (random_draws p))
                    (game (initialize_session_state st))).
  { rewrite game_main_session, exec_main. unfold after_main, run_input_of.
    cbn [sidebar_restart game_over_restart user_input response rnd].
    rewrite Hside, Hplay, Hinput, Hsent.
    destruct (mode (game (initialize_session_state st)));
      [reflexivity | contradiction Hmode; reflexivity]. }
  split; [exact Hgame |]. split; [rewrite Hgame; apply choices_after_turn |].
  destruct (main_session_unfold p st) as (s1 & Hg1 & _ & _ & _ & Hmain).
  rewrite Hmain. rewrite Hside in Hg1. rewrite Hg1.
  destruct (mode (game (initialize_session_state st)));
    [| contradiction Hmode; reflexivity].
  cbv zeta.
  assert (Hsame : game (match conversation_history s1 with
                        | [] => append_message (intro_message (language s1)) s1
                        | _ :: _ => s1
                        end) = game s1)
    by (destruct (conversation_history s1); reflexivity).
  rewrite Hsame, Hg1, Hplay, Hinput.
  cbn [append_message conversation_history set_game].
  rewrite generate_story_response_after_input, Hsent.
  apply last_last.
Qed.

Lemma failed_reply_still_plays_a_turn_witness :
  click_restart_sidebar Page.type_offline = false /\
  mode (game (initialize_session_state Page.mode_chosen)) <> None /\
  ended (game (initialize_session_state Page.mode_chosen)) = false /\
  chat_input Page.type_offline = Some "look around"%string /\
  sent_message Page.type_offline = None /\
  game (main_session Page.type_offline Page.mode_chosen) =
    exec (update_game_state story_fallback (random_draws Page.type_offline))
      (game (initialize_session_state Page.mode_chosen)) /\
  choices_made (game (main_session Page.type_offline Page.mode_chosen)) =
    choices_made (game (initialize_session_state Page.mode_chosen)) + 1 /\
  last (conversation_history (main_session Page.type_offline Page.mode_chosen))
    (intro_message English) = mk_message model story_fallback.
Proof.
  assert (Hmode : mode (game (initialize_session_state Page.mode_chosen)) <> None)
    by discriminate.
  split; [reflexivity |]. split; [exact Hmode |].
  do 3 (split; [reflexivity |]).
  exact (failed_reply_still_plays_a_turn Page.type_offline Page.mode_chosen
           "l"%char "ook around" eq_refl Hmode eq_refl eq_refl eq_refl).
Defined.

(** ** What the player is told *)

(** X21: the notices of a turn say what happened to the state: the one about
    food restoring health is shown exactly when eating raised health, always
    with 10 points, and the one about found supplies exactly when the turn
    finds food; nothing else is shown. *)
Theorem notices_match_state text rnd g :
  shown (update_game_state text rnd) g =
  ((if (0 <? food g) && (health g <? health (exec consume_food g))
    then [consumed_food_restored 10] else []) ++
   (if finds_food (mode g) rnd then [found_food_supplies] else []))%list.
Proof.
  unfold finds_food.
  destruct g as [h f c s [[]|] e], rnd as [[] r];
    run_script; try reflexivity; to_Z; lia.
Qed.
